(** * PDF reader: the document-to-prompt pipeline

    A shallow embedding of the text pipeline of the PDF reader
    (QuestionBox's [cleanAndGenerateQuestions], PDFUploader's
    [handleFileChange] and the [/upload] route of server.js), with the
    properties of its stages. *)

From Stdlib Require Import Strings.String Strings.Ascii Numbers.DecimalString.
From Stdlib Require Import List NArith Arith Bool Lia FunInd.
Import ListNotations.

Set Implicit Arguments.

(** ** JavaScript strings

    A JavaScript string is a sequence of UTF-16 code units; [s.length],
    the regular expressions used here (none carries the [u] flag) and
    [trim] all work on code units. *)

Module JS.

Definition codeunit := N.
Definition jsstring := list codeunit.

(** An ASCII literal of the source, as code units. *)
Definition lit (s : string) : jsstring :=
  map N_of_ascii (list_ascii_of_string s).

Definition SPACE : codeunit := 32%N.
Definition NEWLINE : codeunit := 10%N.
Definition QUOTE : codeunit := 34%N.
(** U+2192 RIGHTWARDS ARROW, one code unit. *)
Definition ARROW : codeunit := 8594%N.

Definition between (lo hi c : N) : bool := (lo <=? c)%N && (c <=? hi)%N.

(** The class [\s] of a regular expression, which is also the set that
    [String.prototype.trim] strips: WhiteSpace and LineTerminator. *)
Definition is_whitespace (c : codeunit) : bool :=
  between 9 13 c || (c =? 32)%N || (c =? 160)%N || (c =? 5760)%N
  || between 8192 8202 c || (c =? 8232)%N || (c =? 8233)%N
  || (c =? 8239)%N || (c =? 8287)%N || (c =? 12288)%N || (c =? 65279)%N.

(** [s.replace(/[class]/g, r)]: every code unit of the class is replaced
    by [r], the others are kept. *)
Definition replace_each (cls : codeunit -> bool) (r s : jsstring) : jsstring :=
  flat_map (fun c => if cls c then r else [c]) s.

(** [s.replace(/[class]+/g, r)]: [+] is greedy, so each maximal run of the
    class is one match and is replaced by one [r]. [in_run] records that
    the previous code unit belonged to the match being consumed. *)
Fixpoint replace_runs_from (cls : codeunit -> bool) (r : jsstring)
    (in_run : bool) (s : jsstring) : jsstring :=
  match s with
  | [] => []
  | c :: t =>
      if cls c
      then (if in_run then [] else r) ++ replace_runs_from cls r true t
      else c :: replace_runs_from cls r false t
  end.

Definition replace_runs (cls : codeunit -> bool) (r s : jsstring) : jsstring :=
  replace_runs_from cls r false s.

Fixpoint trimStart (s : jsstring) : jsstring :=
  match s with
  | [] => []
  | c :: t => if is_whitespace c then trimStart t else s
  end.

Definition trimEnd (s : jsstring) : jsstring := rev (trimStart (rev s)).

Definition trim (s : jsstring) : jsstring := trimEnd (trimStart s).

(** [Array.prototype.join]. *)
Fixpoint join (sep : jsstring) (l : list jsstring) : jsstring :=
  match l with
  | [] => []
  | [x] => x
  | x :: rest => x ++ sep ++ join sep rest
  end.

(** Template-literal rendering of a non-negative integer. *)
Definition number_to_string (n : nat) : jsstring :=
  lit (NilEmpty.string_of_uint (Nat.to_uint n)).

(** [Array.prototype.map] with the index passed to the callback. *)
Fixpoint map_indexed_from (A B : Type) (f : A -> nat -> B) (idx : nat)
    (l : list A) : list B :=
  match l with
  | [] => []
  | x :: rest => f x idx :: map_indexed_from f (S idx) rest
  end.

Definition map_indexed (A B : Type) (f : A -> nat -> B) (l : list A) : list B :=
  map_indexed_from f 0 l.

End JS.

Import JS.

(** ** QuestionBox: [cleanAndGenerateQuestions] *)

Module QuestionBox.

(** The class [a-zA-Z0-9.,!? \n] whose complement the first pass replaces. *)
Definition allow_class (c : codeunit) : bool :=
  between 97 122 c || between 65 90 c || between 48 57 c
  || (c =? 46)%N || (c =? 44)%N || (c =? 33)%N || (c =? 63)%N
  || (c =? 32)%N || (c =? 10)%N.

Definition is_newline (c : codeunit) : bool := (c =? 10)%N.

(** [.replace(/[^a-zA-Z0-9.,!? \n]/g, " ")] *)
Definition pass_allow (text : jsstring) : jsstring :=
  replace_each (fun c => negb (allow_class c)) [SPACE] text.

(** [.replace(/\s+/g, " ")] *)
Definition pass_whitespace (text : jsstring) : jsstring :=
  replace_runs is_whitespace [SPACE] text.

(** [.replace(/\n+/g, " ")] *)
Definition pass_newlines (text : jsstring) : jsstring :=
  replace_runs is_newline [SPACE] text.

(** [cleanedText] *)
Definition cleanText (text : jsstring) : jsstring :=
  trim (pass_newlines (pass_whitespace (pass_allow text))).

(** A match of [/\. |\? |! /] at the two code units [c d]. *)
Definition is_terminator (c : codeunit) : bool :=
  (c =? 46)%N || (c =? 63)%N || (c =? 33)%N.

Definition delimiter_at (c d : codeunit) : bool :=
  is_terminator c && (d =? 32)%N.

(** [s.split(/\. |\? |! /)]: scan from the left; [cur] holds, reversed,
    the code units since the end of the last match. A match closes the
    current piece and the scan resumes after it; the end of the string
    closes the last piece. The pattern never matches the empty string, so
    the empty input gives one empty piece. *)
Fixpoint split_from (cur : jsstring) (s : jsstring) : list jsstring :=
  match s with
  | [] => [rev cur]
  | c :: t =>
      match t with
      | d :: t' =>
          if delimiter_at c d
          then rev cur :: split_from [] t'
          else split_from (c :: cur) t
      | [] => [rev (c :: cur)]
      end
  end.

Definition splitSentences (s : jsstring) : list jsstring := split_from [] s.

(** [.filter(s => s.length > 30)] *)
Definition longEnough (s : jsstring) : bool := 30 <? length s.

Definition candidateFilter (l : list jsstring) : list jsstring :=
  filter longEnough l.

(** [sentences] *)
Definition sentencesOf (cleanedText : jsstring) : list jsstring :=
  candidateFilter (splitSentences cleanedText).

(** The template literal of the [map] callback. *)
Definition prompt (sentence : jsstring) (idx : nat) : jsstring :=
  lit "Q" ++ number_to_string (idx + 1) ++ lit ": What does this mean? "
  ++ [ARROW] ++ [SPACE; QUOTE] ++ trim sentence ++ lit "?" ++ [QUOTE].

(** [sentences.slice(0, 5).map((sentence, idx) => ...)] *)
Definition generateQuestions (sentences : list jsstring) : list jsstring :=
  map_indexed prompt (firstn 5 sentences).

Definition promptsOfCleaned (cleanedText : jsstring) : list jsstring :=
  generateQuestions (sentencesOf cleanedText).

Definition cleanAndGenerateQuestions (text : jsstring) : list jsstring :=
  promptsOfCleaned (cleanText text).

End QuestionBox.

Import QuestionBox.

(** The state of the QuestionBox component and the body of its effect,
    which overwrites [questions] whatever it held. *)
Record QuestionBoxState := { questions : list jsstring }.

Definition runEffect (text : jsstring) (st : QuestionBoxState) : QuestionBoxState :=
  {| questions := cleanAndGenerateQuestions text |}.

(** ** PDFUploader: [handleFileChange] *)

Module PDFUploader.

(** What pdf.js hands back; only the members the component reads. *)
Record TextItem := { str : jsstring }.
Record TextContent := { items : list TextItem }.
Record PDFPageProxy := { getTextContent : TextContent }.
Record PDFDocumentProxy := {
  numPages : nat;
  getPage : nat -> PDFPageProxy
}.

(** [content.items.map(item => item.str).join(" ")] *)
Definition pageTextOf (page : PDFPageProxy) : jsstring :=
  join [SPACE] (map str (items (getTextContent page))).

(** [for (let i = 1; i <= pdf.numPages; i++) { ... text += pageText + "\n"; }]
    with [todo] pages left, the next one being page [i]. *)
Fixpoint pageLoop (pdf : PDFDocumentProxy) (i todo : nat) (text : jsstring)
    : jsstring :=
  match todo with
  | 0 => text
  | S todo' =>
      pageLoop pdf (S i) todo' (text ++ pageTextOf (getPage pdf i) ++ [NEWLINE])
  end.

Definition documentText (pdf : PDFDocumentProxy) : jsstring :=
  pageLoop pdf 1 (numPages pdf) [].

Record File := { type : jsstring; contents : list Byte.byte }.

Inductive effect :=
| Alert (message : jsstring)
| OnUpload (text : jsstring).

(** What one change event does: the calls it makes, and the error its
    [onload] promise is rejected with, if any. *)
Record outcome (E : Type) := { effects : list effect; rejected : option E }.

Section Decoder.

Variable DecodeError : Type.
(** [pdfjsLib.getDocument(typedArray).promise]: resolved or rejected. *)
Variable getDocument : list Byte.byte -> DecodeError + PDFDocumentProxy.

Definition onload (typedArray : list Byte.byte) : outcome DecodeError :=
  match getDocument typedArray with
  | inl err => {| effects := []; rejected := Some err |}
  | inr pdf => {| effects := [OnUpload (documentText pdf)]; rejected := None |}
  end.

Definition alertInvalid : outcome DecodeError :=
  {| effects := [Alert (lit "Please upload a valid PDF.")]; rejected := None |}.

Definition handleFileChange (files : list File) : outcome DecodeError :=
  match files with
  | file :: _ =>
      if list_eq_dec N.eq_dec (type file) (lit "application/pdf")
      then onload (contents file)
      else alertInvalid
  | [] => alertInvalid
  end.

End Decoder.

End PDFUploader.

(** ** App: the uploaded text and the question box it feeds *)

Module App.

Record state := { pdfText : jsstring }.

Definition initial : state := {| pdfText := [] |}.

Definition perform (st : state) (e : PDFUploader.effect) : state :=
  match e with
  | PDFUploader.OnUpload text => {| pdfText := text |}
  | PDFUploader.Alert _ => st
  end.

Definition after (E : Type) (st : state) (o : PDFUploader.outcome E) : state :=
  fold_left perform (PDFUploader.effects o) st.

(** [{pdfText && <QuestionBox text={pdfText} />}]: the questions shown, if
    the box is mounted at all. *)
Definition shownQuestions (st : state) : option (list jsstring) :=
  match pdfText st with
  | [] => None
  | _ :: _ => Some (questions (runEffect (pdfText st) {| questions := [] |}))
  end.

End App.

(** ** server.js: the [/upload] route *)

Module Server.

Record UploadedFile := { buffer : list Byte.byte }.
Record Request := { file : option UploadedFile }.

(** The result of pdf-parse; only [text] is read. *)
Record PdfData := { text : jsstring }.

(** A JSON object whose members are strings. *)
Definition jsonObject := list (string * jsstring).

Fixpoint member (key : string) (o : jsonObject) : option jsstring :=
  match o with
  | [] => None
  | (k, v) :: rest => if String.eqb k key then Some v else member key rest
  end.

Record Response := { statusCode : N; body : option jsonObject }.

(** Express starts every response at status 200. *)
Definition fresh : Response := {| statusCode := 200; body := None |}.

Definition status (code : N) (res : Response) : Response :=
  {| statusCode := code; body := body res |}.

Definition json (o : jsonObject) (res : Response) : Response :=
  {| statusCode := statusCode res; body := Some o |}.

Section Route.

Variable ParseError : Type.
(** [pdfParse(buffer)]: resolved with the data or rejected. *)
Variable pdfParse : list Byte.byte -> ParseError + PdfData.

Definition upload (req : Request) (res : Response) : Response :=
  match file req with
  | None => json [("error"%string, lit "No file uploaded")] (status 400 res)
  | Some f =>
      match pdfParse (buffer f) with
      | inr data => json [("text"%string, text data)] res
      | inl _ => json [("error"%string, lit "Failed to parse PDF")] (status 500 res)
      end
  end.

(** The route run on a fresh response object. *)
Definition respond (req : Request) : Response := upload req fresh.

End Route.

(** The body sent has the member [key], a string [v]. *)
Definition has_member (key : string) (v : jsstring) (res : Response) : Prop :=
  exists o, body res = Some o /\ member key o = Some v.

Definition lacks_member (key : string) (res : Response) : Prop :=
  exists o, body res = Some o /\ member key o = None.

End Server.

(** ** Vocabulary of the properties *)

(** The characters the first pass keeps, other than space and newline. *)
Definition listed (c : codeunit) : Prop :=
  (97 <= c <= 122)%N \/ (65 <= c <= 90)%N \/ (48 <= c <= 57)%N
  \/ c = 46%N \/ c = 44%N \/ c = 33%N \/ c = 63%N.

Definition listed_or_space (c : codeunit) : Prop := listed c \/ c = SPACE.

(** Every code unit is of the class the first pass keeps. *)
Definition in_class (s : jsstring) : Prop :=
  Forall (fun c => allow_class c = true) s.

(** What the three passes leave, before [trim]. *)
Definition passes (text : jsstring) : jsstring :=
  pass_newlines (pass_whitespace (pass_allow text)).

(** Pairs of code units at which the split pattern matches, looked for
    from the left. *)
Fixpoint has_delimiter (s : jsstring) : bool :=
  match s with
  | [] => false
  | c :: t =>
      match t with
      | d :: _ => delimiter_at c d
      | [] => false
      end || has_delimiter t
  end.

(** Two spaces in a row somewhere in [s]. *)
Definition has_double_space (s : jsstring) : Prop :=
  exists a b, s = a ++ SPACE :: SPACE :: b.

(** One of the three delimiters [". "], ["? "], ["! "]. *)
Definition delimiter (d : jsstring) : Prop :=
  d = lit ". " \/ d = lit "? " \/ d = lit "! ".

Definition contains_delimiter (s : jsstring) : Prop :=
  exists a d b, delimiter d /\ s = a ++ d ++ b.

(** The pieces put back together, each delimiter between its neighbours. *)
Fixpoint interleave (pieces delims : list jsstring) : jsstring :=
  match pieces, delims with
  | [], _ => []
  | p :: ps, d :: ds => p ++ d ++ interleave ps ds
  | p :: ps, [] => p ++ concat ps
  end.

(** [l1] is [l2] with some elements left out, the others in place. *)
Inductive subsequence (A : Type) : list A -> list A -> Prop :=
| sub_nil : subsequence [] []
| sub_skip : forall x l1 l2, subsequence l1 l2 -> subsequence l1 (x :: l2)
| sub_keep : forall x l1 l2, subsequence l1 l2 -> subsequence (x :: l1) (x :: l2).

Definition whitespace_only (s : jsstring) : Prop :=
  Forall (fun c => is_whitespace c = true) s.

(** [t] is [s] without the whitespace at its two ends. *)
Definition trimmed_of (s t : jsstring) : Prop :=
  (exists pre post, s = pre ++ t ++ post
                    /\ whitespace_only pre /\ whitespace_only post)
  /\ (forall c, hd_error t = Some c -> is_whitespace c = false)
  /\ (forall c, hd_error (rev t) = Some c -> is_whitespace c = false).

(** The shape of the prompt for the candidate at index [i]. *)
Definition prompt_shape (i : nat) (trimmed : jsstring) : jsstring :=
  lit "Q" ++ number_to_string (i + 1) ++ lit ": What does this mean? "
  ++ [ARROW; SPACE; QUOTE] ++ trimmed ++ [63%N; QUOTE].

(** The end-to-end scenario: its input, and the prompts the code returns. *)
Definition mito : jsstring :=
  lit "The mitochondria is the powerhouse of the cell. It performs cellular respiration constantly.".

Definition prompt_text (ordinal sentence : string) : jsstring :=
  lit "Q" ++ lit ordinal ++ lit ": What does this mean? "
  ++ [ARROW; SPACE; QUOTE] ++ lit sentence ++ lit "?" ++ [QUOTE].

(** Twenty copies of a candidate with blanks at both ends. *)
Definition twenty : list jsstring :=
  repeat (lit "  Cells divide by mitosis in plants and animals ") 20.

(** Segments of 30 and of 31 code units. *)
Definition thirty : jsstring := repeat 97%N 30.
Definition thirty_one : jsstring := repeat 97%N 31.

(** A document of one page with two fragments. *)
Definition one_page : PDFUploader.PDFDocumentProxy :=
  {| PDFUploader.numPages := 1;
     PDFUploader.getPage := fun _ =>
       {| PDFUploader.getTextContent :=
            {| PDFUploader.items := [ {| PDFUploader.str := lit "Hello" |};
                                      {| PDFUploader.str := lit "world" |} ] |} |} |}.

(** Stand-ins for the two decoders: a buffer is taken for a PDF when it
    begins with the bytes of [%PDF-]. *)
Definition has_pdf_header (buf : list Byte.byte) : bool :=
  match buf with
  | Byte.x25 :: Byte.x50 :: Byte.x44 :: Byte.x46 :: Byte.x2d :: _ => true
  | _ => false
  end.

Definition stub_pdfParse (buf : list Byte.byte) : unit + Server.PdfData :=
  if has_pdf_header buf then inr {| Server.text := lit "Hello world" |}
  else inl tt.

Definition stub_getDocument (buf : list Byte.byte)
    : unit + PDFUploader.PDFDocumentProxy :=
  if has_pdf_header buf then inr one_page else inl tt.

Definition not_a_pdf : list Byte.byte := [Byte.x47; Byte.x49; Byte.x46].

(** ** QuestionBox: what is rendered *)

(** [questions.length === 0 ? <p>...</p> : <ul>{questions.map((q, idx) =>
    <li key={idx}>{q}</li>)}</ul>] *)
Inductive view :=
| NoValidContent (message : jsstring)
| QuestionList (items : list (nat * jsstring)).

Definition render (st : QuestionBoxState) : view :=
  match questions st with
  | [] => NoValidContent (lit "No valid content found to generate questions.")
  | _ :: _ => QuestionList (map_indexed (fun q idx => (idx, q)) (questions st))
  end.

(** The lengths of the pieces of a split, added up. *)
Definition total_length (pieces : list jsstring) : nat :=
  list_sum (map (@length codeunit) pieces).

(** A file that is not announced as a PDF, and a document that differs
    from [one_page] outside the pages it has. *)
Definition png_file : PDFUploader.File :=
  {| PDFUploader.type := lit "image/png"; PDFUploader.contents := not_a_pdf |}.

Definition pdf_file : PDFUploader.File :=
  {| PDFUploader.type := lit "application/pdf";
     PDFUploader.contents := [Byte.x25; Byte.x50; Byte.x44; Byte.x46; Byte.x2d] |}.

Definition one_page_elsewhere : PDFUploader.PDFDocumentProxy :=
  {| PDFUploader.numPages := 1;
     PDFUploader.getPage := fun i =>
       match i with
       | 1 => PDFUploader.getPage one_page 1
       | _ => {| PDFUploader.getTextContent := {| PDFUploader.items := [] |} |}
       end |}.

(** * Properties *)

(** ** Character classes *)

Ltac classes :=
  unfold listed_or_space, listed, allow_class, is_whitespace, is_newline,
    delimiter_at, is_terminator, between, SPACE, NEWLINE in *;
  repeat rewrite ?orb_true_iff, ?andb_true_iff, ?orb_false_iff,
    ?andb_false_iff, ?negb_true_iff, ?negb_false_iff,
    ?N.leb_le, ?N.leb_gt, ?N.eqb_eq, ?N.eqb_neq in *.

Lemma allow_class_spec (c : codeunit) :
  allow_class c = true <-> listed c \/ c = SPACE \/ c = NEWLINE.
Proof. classes. lia. Qed.

Lemma listed_not_whitespace (c : codeunit) :
  listed c -> is_whitespace c = false.
Proof. classes. lia. Qed.

Lemma space_is_whitespace : is_whitespace SPACE = true.
Proof. reflexivity. Qed.

Lemma whitespace_in_class (c : codeunit) :
  allow_class c = true -> is_whitespace c = true -> c = SPACE \/ c = NEWLINE.
Proof. classes. lia. Qed.

Lemma class_not_whitespace (c : codeunit) :
  allow_class c = true -> is_whitespace c = false -> listed c.
Proof. classes. lia. Qed.

Lemma listed_ascii (c : codeunit) : listed_or_space c -> (c < 128)%N.
Proof. classes. lia. Qed.

(** ** [trim] *)

Lemma whitespace_only_rev (s : jsstring) :
  whitespace_only s -> whitespace_only (rev s).
Proof. unfold whitespace_only. apply Forall_rev. Qed.

Lemma trimStart_split (s : jsstring) :
  exists pre, s = pre ++ trimStart s /\ whitespace_only pre.
Proof.
  induction s as [|c t [pre [Heq Hws]]]; simpl.
  - exists []. split; [reflexivity | constructor].
  - destruct (is_whitespace c) eqn:Hc.
    + exists (c :: pre). split.
      * simpl. congruence.
      * constructor; assumption.
    + exists []. split; [reflexivity | constructor].
Qed.

Lemma trimStart_head (s : jsstring) (c : codeunit) :
  hd_error (trimStart s) = Some c -> is_whitespace c = false.
Proof.
  induction s as [|d t IH]; simpl; [discriminate|].
  destruct (is_whitespace d) eqn:Hd; [exact IH|].
  simpl. congruence.
Qed.

Lemma trimStart_id (s : jsstring) :
  (forall c, hd_error s = Some c -> is_whitespace c = false) ->
  trimStart s = s.
Proof.
  destruct s as [|c t]; simpl; [reflexivity|].
  intros H. rewrite (H c eq_refl). reflexivity.
Qed.

Lemma trimEnd_split (s : jsstring) :
  exists post, s = trimEnd s ++ post /\ whitespace_only post.
Proof.
  destruct (trimStart_split (rev s)) as [pre [Heq Hws]].
  exists (rev pre). split.
  - unfold trimEnd. rewrite <- rev_app_distr, <- Heq, rev_involutive.
    reflexivity.
  - apply whitespace_only_rev, Hws.
Qed.

Lemma trimEnd_last (s : jsstring) (c : codeunit) :
  hd_error (rev (trimEnd s)) = Some c -> is_whitespace c = false.
Proof.
  unfold trimEnd. rewrite rev_involutive. apply trimStart_head.
Qed.

Lemma trimEnd_id (s : jsstring) :
  (forall c, hd_error (rev s) = Some c -> is_whitespace c = false) ->
  trimEnd s = s.
Proof.
  intros H. unfold trimEnd. rewrite (trimStart_id _ H).
  apply rev_involutive.
Qed.

Lemma trim_id (s : jsstring) :
  (forall c, hd_error s = Some c -> is_whitespace c = false) ->
  (forall c, hd_error (rev s) = Some c -> is_whitespace c = false) ->
  trim s = s.
Proof.
  intros Hh Hl. unfold trim. rewrite (trimStart_id _ Hh).
  apply trimEnd_id, Hl.
Qed.

Lemma trim_spec (s : jsstring) : trimmed_of s (trim s).
Proof.
  destruct (trimStart_split s) as [pre [Hpre Hwpre]].
  destruct (trimEnd_split (trimStart s)) as [post [Hpost Hwpost]].
  fold (trim s) in Hpost.
  repeat split.
  - exists pre, post. repeat split; try assumption.
    rewrite <- Hpost. exact Hpre.
  - intros c Hc. apply (trimStart_head s).
    rewrite Hpost. destruct (trim s); simpl in *; [discriminate | exact Hc].
  - intros c. apply trimEnd_last.
Qed.

(** What [trim] returns is a stretch of its argument. *)
Lemma trim_infix (s : jsstring) :
  exists pre post, s = pre ++ trim s ++ post.
Proof.
  destruct (trim_spec s) as [[pre [post [H _]]] _]. eauto.
Qed.

(** ** The three substitution passes *)

Lemma pass_allow_map (text : jsstring) :
  pass_allow text = map (fun c => if allow_class c then c else SPACE) text.
Proof.
  unfold pass_allow, replace_each.
  induction text as [|c t IH]; simpl; [reflexivity|].
  rewrite IH. destruct (allow_class c); reflexivity.
Qed.

Lemma pass_allow_in_class (text : jsstring) : in_class (pass_allow text).
Proof.
  rewrite pass_allow_map. unfold in_class.
  induction text as [|c t IH]; simpl; constructor; try assumption.
  destruct (allow_class c) eqn:Hc; [exact Hc | reflexivity].
Qed.

Lemma pass_allow_id (s : jsstring) : in_class s -> pass_allow s = s.
Proof.
  rewrite pass_allow_map.
  induction 1 as [|c t Hc _ IH]; simpl; [reflexivity|].
  rewrite Hc, IH. reflexivity.
Qed.

Lemma listed_or_space_in_class (s : jsstring) :
  Forall listed_or_space s -> in_class s.
Proof.
  apply Forall_impl. intros c Hc. apply allow_class_spec.
  destruct Hc; [left | right; left]; assumption.
Qed.

Lemma double_space_cons (c : codeunit) (s : jsstring) :
  has_double_space (c :: s) ->
  (c = SPACE /\ hd_error s = Some SPACE) \/ has_double_space s.
Proof.
  intros [a [b H]]. destruct a as [|x a]; simpl in H.
  - injection H as -> ->. left. split; reflexivity.
  - injection H as _ ->. right. exists a, b. reflexivity.
Qed.

Lemma double_space_infix (pre s post : jsstring) :
  has_double_space s -> has_double_space (pre ++ s ++ post).
Proof.
  intros [a [b ->]]. exists (pre ++ a), (b ++ post).
  rewrite <- !app_assoc. reflexivity.
Qed.

Section Runs.

Variable cls : codeunit -> bool.
Variable r : jsstring.

(** A string without any code unit of the class has nothing to replace. *)
Lemma replace_runs_from_none (s : jsstring) (in_run : bool) :
  Forall (fun c => cls c = false) s -> replace_runs_from cls r in_run s = s.
Proof.
  intros H. revert in_run.
  induction H as [|c t Hc _ IH]; intros in_run; simpl; [reflexivity|].
  rewrite Hc, IH. reflexivity.
Qed.

End Runs.

(** Inside a run of whitespace nothing is emitted, so what follows a run
    never begins with a space. *)
Lemma whitespace_run_head (s : jsstring) :
  in_class s ->
  hd_error (replace_runs_from is_whitespace [SPACE] true s) <> Some SPACE.
Proof.
  induction 1 as [|c t Hc _ IH]; simpl; [discriminate|].
  destruct (is_whitespace c) eqn:Hw; [exact IH|].
  simpl. intros [= ->]. discriminate.
Qed.

Lemma whitespace_runs_listed (s : jsstring) (in_run : bool) :
  in_class s ->
  Forall listed_or_space (replace_runs_from is_whitespace [SPACE] in_run s).
Proof.
  intros H. revert in_run.
  induction H as [|c t Hc _ IH]; intros in_run; simpl; [constructor|].
  destruct (is_whitespace c) eqn:Hw.
  - destruct in_run; simpl; [apply IH|].
    constructor; [right; reflexivity | apply IH].
  - constructor; [|apply IH].
    left. apply class_not_whitespace; assumption.
Qed.

Lemma whitespace_runs_single (s : jsstring) (in_run : bool) :
  in_class s ->
  ~ has_double_space (replace_runs_from is_whitespace [SPACE] in_run s).
Proof.
  intros H. revert in_run.
  induction H as [|c t Hc Ht IH]; intros in_run; simpl.
  - intros [[|x a] [b Hab]]; discriminate.
  - destruct (is_whitespace c) eqn:Hw.
    + destruct in_run; simpl; [apply IH|].
      intros Hd. apply double_space_cons in Hd as [[_ Hh]|Hd].
      * exact (whitespace_run_head Ht Hh).
      * exact (IH true Hd).
    + intros Hd. apply double_space_cons in Hd as [[-> _]|Hd].
      * discriminate.
      * exact (IH false Hd).
Qed.

(** A string that is already single-spaced and never begins a piece with
    a space where a run is open comes back unchanged. *)
Lemma whitespace_runs_id (s : jsstring) :
  Forall listed_or_space s -> ~ has_double_space s ->
  forall in_run : bool,
    (in_run = true -> hd_error s <> Some SPACE) ->
    replace_runs_from is_whitespace [SPACE] in_run s = s.
Proof.
  induction 1 as [|c t Hc _ IH]; intros Hd in_run Hrun; simpl; [reflexivity|].
  assert (Hd' : ~ has_double_space t).
  { intros H. apply Hd. apply (double_space_infix [c] []) in H.
    rewrite app_nil_r in H. exact H. }
  destruct Hc as [Hc | ->].
  - rewrite (listed_not_whitespace Hc). f_equal.
    apply IH; [assumption | discriminate].
  - rewrite space_is_whitespace.
    destruct in_run; [exfalso; apply Hrun; reflexivity|].
    simpl. f_equal. apply IH; [assumption|].
    intros _ Hh. apply Hd. destruct t as [|d t]; [discriminate|].
    injection Hh as ->. exists [], t. reflexivity.
Qed.

Lemma listed_or_space_not_newline (s : jsstring) :
  Forall listed_or_space s -> Forall (fun c => is_newline c = false) s.
Proof. apply Forall_impl. intros c. classes. lia. Qed.

Lemma passes_whitespace (text : jsstring) :
  passes text = pass_whitespace (pass_allow text).
Proof.
  unfold passes, pass_newlines, replace_runs.
  apply replace_runs_from_none, listed_or_space_not_newline.
  apply whitespace_runs_listed, pass_allow_in_class.
Qed.

Lemma passes_listed (text : jsstring) : Forall listed_or_space (passes text).
Proof.
  rewrite passes_whitespace.
  apply whitespace_runs_listed, pass_allow_in_class.
Qed.

Lemma passes_single (text : jsstring) : ~ has_double_space (passes text).
Proof.
  rewrite passes_whitespace.
  apply whitespace_runs_single, pass_allow_in_class.
Qed.

(** ** The cleaned text *)

Lemma cleanText_listed (text : jsstring) :
  Forall listed_or_space (cleanText text).
Proof.
  change (cleanText text) with (trim (passes text)).
  destruct (trim_infix (passes text)) as [pre [post H]].
  pose proof (passes_listed text) as Hl. rewrite H in Hl.
  apply Forall_app in Hl as [_ Hl]. apply Forall_app in Hl as [Hl _].
  exact Hl.
Qed.

Lemma cleanText_single (text : jsstring) : ~ has_double_space (cleanText text).
Proof.
  change (cleanText text) with (trim (passes text)).
  destruct (trim_infix (passes text)) as [pre [post H]].
  intros Hd. apply (passes_single text). rewrite H.
  apply double_space_infix, Hd.
Qed.

Lemma cleanText_no_newline (text : jsstring) : ~ In NEWLINE (cleanText text).
Proof.
  intros Hin. pose proof (cleanText_listed text) as Hl.
  rewrite Forall_forall in Hl. specialize (Hl _ Hin).
  revert Hl. classes. lia.
Qed.

Lemma cleanText_ends (text : jsstring) :
  (forall c, hd_error (cleanText text) = Some c -> is_whitespace c = false)
  /\ (forall c, hd_error (rev (cleanText text)) = Some c ->
                is_whitespace c = false).
Proof.
  change (cleanText text) with (trim (passes text)).
  destruct (trim_spec (passes text)) as [_ H]. exact H.
Qed.

(** A text that already has the shape of a cleaned text is left as it is. *)
Lemma cleanText_fixed (s : jsstring) :
  Forall listed_or_space s -> ~ has_double_space s ->
  (forall c, hd_error s = Some c -> is_whitespace c = false) ->
  (forall c, hd_error (rev s) = Some c -> is_whitespace c = false) ->
  cleanText s = s.
Proof.
  intros Hl Hd Hh Ht. unfold cleanText.
  fold (passes s). rewrite passes_whitespace.
  rewrite (pass_allow_id (listed_or_space_in_class Hl)).
  unfold pass_whitespace, replace_runs.
  rewrite (whitespace_runs_id Hl Hd); [|discriminate].
  apply trim_id; assumption.
Qed.

(** ** Splitting into sentences *)

Lemma delimiter_at_spec (c d : codeunit) :
  delimiter_at c d = true <-> delimiter [c; d].
Proof.
  unfold delimiter.
  change (lit ". ") with [46%N; 32%N]. change (lit "? ") with [63%N; 32%N].
  change (lit "! ") with [33%N; 32%N]. classes. split.
  - intros [[[->| ->]| ->] ->]; auto.
  - intros [H|[H|H]]; injection H as -> ->; auto.
Qed.

Lemma has_delimiter_spec (s : jsstring) :
  has_delimiter s = true <-> contains_delimiter s.
Proof.
  split.
  - induction s as [|c t IH]; simpl; [discriminate|].
    intros H. apply orb_true_iff in H as [H|H].
    + destruct t as [|d t']; [discriminate|].
      exists [], [c; d], t'. split; [apply delimiter_at_spec, H | reflexivity].
    + destruct (IH H) as [a [d [b [Hd ->]]]].
      exists (c :: a), d, b. split; [exact Hd | reflexivity].
  - intros [a [d [b [Hd ->]]]].
    assert (Hcd : exists x y, d = [x; y] /\ delimiter_at x y = true).
    { destruct Hd as [->|[->| ->]]; do 2 eexists; split; reflexivity. }
    destruct Hcd as [x [y [-> Hxy]]].
    induction a as [|c a IH]; simpl in *.
    + rewrite Hxy. reflexivity.
    + rewrite IH. apply orb_true_r.
Qed.

Lemma has_delimiter_app_l (a b : jsstring) :
  has_delimiter (a ++ b) = false -> has_delimiter a = false.
Proof.
  induction a as [|c a IH]; simpl; [reflexivity|].
  intros H. apply orb_false_iff in H as [H1 H2].
  rewrite (IH H2), orb_false_r.
  destruct a as [|d a]; [reflexivity | exact H1].
Qed.

Lemma has_delimiter_snoc (a : jsstring) (c d : codeunit) :
  has_delimiter (a ++ [c; d]) = has_delimiter (a ++ [c]) || delimiter_at c d.
Proof.
  induction a as [|x a IH]; simpl.
  - rewrite !orb_false_r. reflexivity.
  - rewrite IH, orb_assoc. f_equal.
    destruct a as [|y a]; simpl; [|reflexivity].
    rewrite orb_false_r. reflexivity.
Qed.

Functional Scheme split_from_ind := Induction for split_from Sort Prop.

(** No piece holds a delimiter, provided the piece under construction,
    with the code unit about to be scanned, holds none. *)
Lemma split_from_pieces (cur s : jsstring) :
  has_delimiter (rev cur ++ firstn 1 s) = false ->
  Forall (fun p => has_delimiter p = false) (split_from cur s).
Proof.
  functional induction (split_from cur s); intros H.
  - rewrite app_nil_r in H. repeat constructor. exact H.
  - repeat constructor. exact H.
  - constructor.
    + exact (has_delimiter_app_l _ _ H).
    + apply IHl. destruct t'; reflexivity.
  - apply IHl. simpl in *. rewrite <- app_assoc. simpl.
    rewrite has_delimiter_snoc, H, e1. reflexivity.
Qed.

(** Without a delimiter the scan reaches the end with one piece. *)
Lemma split_from_whole (cur s : jsstring) :
  has_delimiter (rev cur ++ s) = false ->
  split_from cur s = [rev cur ++ s].
Proof.
  functional induction (split_from cur s); intros H.
  - rewrite app_nil_r. reflexivity.
  - reflexivity.
  - exfalso.
    assert (Hd : has_delimiter (rev cur ++ [c; d]) = false).
    { apply (has_delimiter_app_l _ t'). rewrite <- app_assoc. exact H. }
    rewrite has_delimiter_snoc, e1, orb_true_r in Hd. discriminate.
  - rewrite IHl; simpl; rewrite <- app_assoc; [reflexivity | exact H].
Qed.

(** The pieces, with the delimiters that were matched between them, give
    the scanned text back. *)
Lemma split_from_rebuild (cur s : jsstring) :
  exists ds, Forall delimiter ds
             /\ S (length ds) = length (split_from cur s)
             /\ interleave (split_from cur s) ds = rev cur ++ s.
Proof.
  functional induction (split_from cur s).
  - exists []. split; [constructor | split; reflexivity].
  - exists []. split; [constructor | split; [reflexivity|]].
    simpl. apply app_nil_r.
  - destruct IHl as [ds [Hd [Hlen Heq]]].
    exists ([c; d] :: ds). split; [|split].
    + constructor; [apply delimiter_at_spec, e1 | exact Hd].
    + simpl. rewrite Hlen. reflexivity.
    + simpl in *. rewrite Heq. reflexivity.
  - destruct IHl as [ds [Hd [Hlen Heq]]].
    exists ds. split; [exact Hd | split; [exact Hlen|]].
    rewrite Heq. simpl. rewrite <- app_assoc. reflexivity.
Qed.

(** ** The end-to-end scenario *)

(** C1, as the code has it: on the mitochondria text [cleanAndGenerateQuestions]
    finds the two candidates of length above 30 and returns two prompts;
    the first is the one expected, while the second keeps the full stop
    that ends the text, no space following it for the split to consume:
    it reads [It performs cellular respiration constantly.?]. *)
Theorem mito_prompts :
  sentencesOf (cleanText mito) =
    [ lit "The mitochondria is the powerhouse of the cell";
      lit "It performs cellular respiration constantly." ]
  /\ cleanAndGenerateQuestions mito =
    [ prompt_text "1" "The mitochondria is the powerhouse of the cell";
      prompt_text "2" "It performs cellular respiration constantly." ].
Proof. split; vm_compute; reflexivity. Qed.

(** C1 as stated fails: the list returned is not the one whose second
    prompt ends in [constantly?]. *)
Lemma mito_prompts_not_as_stated :
  nth_error (cleanAndGenerateQuestions mito) 1
    = Some (prompt_text "2" "It performs cellular respiration constantly.")
  /\ cleanAndGenerateQuestions mito <>
    [ prompt_text "1" "The mitochondria is the powerhouse of the cell";
      prompt_text "2" "It performs cellular respiration constantly" ].
Proof. split; vm_compute; [reflexivity | discriminate]. Qed.

(** ** The prompt synthesizer *)

Lemma map_indexed_from_length (A B : Type) (f : A -> nat -> B) (l : list A) :
  forall idx, length (map_indexed_from f idx l) = length l.
Proof.
  induction l as [|x l IH]; intros idx; simpl; [reflexivity|].
  rewrite IH. reflexivity.
Qed.

Lemma map_indexed_from_nth (A B : Type) (f : A -> nat -> B) (l : list A) :
  forall idx i,
    nth_error (map_indexed_from f idx l) i =
    option_map (fun x => f x (idx + i)) (nth_error l i).
Proof.
  induction l as [|x l IH]; intros idx [|i]; simpl; try reflexivity.
  - rewrite Nat.add_0_r. reflexivity.
  - rewrite IH. rewrite Nat.add_succ_comm. reflexivity.
Qed.

Lemma prompt_shape_eq (sentence : jsstring) (i : nat) :
  prompt sentence i = prompt_shape i (trim sentence).
Proof.
  unfold prompt, prompt_shape.
  change (lit "?") with [63%N]. simpl.
  repeat (rewrite <- app_assoc; simpl). reflexivity.
Qed.

(** C2: the synthesizer keeps the first five candidates, in order; the
    prompt at index [i] is [Q{i+1}: What does this mean? -> "{t}?"] with
    [t] the candidate without the whitespace at its ends. Twenty
    candidates give five prompts, numbered Q1 to Q5, and no candidate
    gives no prompt. *)
Theorem generateQuestions_spec (sentences : list jsstring) :
  length (generateQuestions sentences) = Nat.min 5 (length sentences)
  /\ (forall i c, i < 5 -> nth_error sentences i = Some c ->
        trimmed_of c (trim c)
        /\ nth_error (generateQuestions sentences) i
           = Some (prompt_shape i (trim c)))
  /\ (length sentences = 20 ->
        length (generateQuestions sentences) = 5
        /\ map (firstn 2) (generateQuestions sentences)
           = [lit "Q1"; lit "Q2"; lit "Q3"; lit "Q4"; lit "Q5"])
  /\ generateQuestions [] = [].
Proof.
  unfold generateQuestions, map_indexed. split; [|split; [|split]].
  - rewrite map_indexed_from_length. apply length_firstn.
  - intros i c Hi Hc. split; [apply trim_spec|].
    rewrite map_indexed_from_nth, nth_error_firstn.
    apply Nat.ltb_lt in Hi. rewrite Hi, Hc. simpl.
    rewrite prompt_shape_eq. reflexivity.
  - intros Hlen.
    destruct sentences as [|c0 [|c1 [|c2 [|c3 [|c4 rest]]]]];
      try discriminate Hlen.
    split; reflexivity.
  - reflexivity.
Qed.

(** C2 on twenty candidates. *)
Lemma generateQuestions_spec_witness :
  length twenty = 20
  /\ length (generateQuestions twenty) = 5
  /\ map (firstn 2) (generateQuestions twenty)
     = [lit "Q1"; lit "Q2"; lit "Q3"; lit "Q4"; lit "Q5"].
Proof.
  split; [reflexivity|].
  apply (proj1 (proj2 (proj2 (generateQuestions_spec twenty)))).
  reflexivity.
Defined.

(** ** The candidate filter *)

Lemma longEnough_spec (s : jsstring) : longEnough s = true <-> 30 < length s.
Proof. unfold longEnough. apply Nat.ltb_lt. Qed.

Lemma filter_subsequence (A : Type) (f : A -> bool) (l : list A) :
  subsequence (filter f l) l.
Proof.
  induction l as [|x l IH]; simpl; [constructor|].
  destruct (f x); constructor; exact IH.
Qed.

Lemma filter_count_occ (f : jsstring -> bool) (l : list jsstring) (s : jsstring) :
  f s = true ->
  count_occ (list_eq_dec N.eq_dec) (filter f l) s
  = count_occ (list_eq_dec N.eq_dec) l s.
Proof.
  intros Hs. induction l as [|x l IH]; simpl; [reflexivity|].
  destruct (list_eq_dec N.eq_dec x s) as [->|Hne].
  - rewrite Hs. simpl.
    destruct (list_eq_dec N.eq_dec s s); [|contradiction].
    rewrite IH. reflexivity.
  - destruct (f x); [|exact IH]. simpl.
    destruct (list_eq_dec N.eq_dec x s); [contradiction | exact IH].
Qed.

(** C3: the filter keeps exactly the segments longer than 30 code units:
    what it returns is its argument with the shorter segments left out,
    the others in their order and as many times as they occur. A segment
    of length 30 is dropped, one of length 31 is kept. *)
Theorem candidateFilter_spec (segments : list jsstring) :
  (forall s, In s (candidateFilter segments)
             <-> In s segments /\ 30 < length s)
  /\ subsequence (candidateFilter segments) segments
  /\ (forall s, 30 < length s ->
        count_occ (list_eq_dec N.eq_dec) (candidateFilter segments) s
        = count_occ (list_eq_dec N.eq_dec) segments s)
  /\ (forall s, length s = 30 -> candidateFilter [s] = [])
  /\ (forall s, length s = 31 -> candidateFilter [s] = [s]).
Proof.
  unfold candidateFilter. split; [|split; [|split; [|split]]].
  - intros s. rewrite filter_In, longEnough_spec. reflexivity.
  - apply filter_subsequence.
  - intros s Hs. apply filter_count_occ, longEnough_spec, Hs.
  - intros s Hs. simpl. unfold longEnough. rewrite Hs. reflexivity.
  - intros s Hs. simpl. unfold longEnough. rewrite Hs. reflexivity.
Qed.

(** C3 on segments of 30 and of 31 code units. *)
Lemma candidateFilter_spec_witness :
  (length thirty = 30 /\ candidateFilter [thirty] = [])
  /\ (length thirty_one = 31 /\ candidateFilter [thirty_one] = [thirty_one])
  /\ count_occ (list_eq_dec N.eq_dec)
       (candidateFilter [thirty_one; thirty; thirty_one]) thirty_one = 2.
Proof.
  destruct (candidateFilter_spec [thirty_one; thirty; thirty_one])
    as [_ [_ [Hcount [H30 H31]]]].
  split; [split; [reflexivity | apply H30; reflexivity]|].
  split; [split; [reflexivity | apply H31; reflexivity]|].
  rewrite Hcount; [reflexivity | vm_compute; lia].
Defined.

(** ** The normalizer *)

(** C4: [cleanText] is defined on every string and gives the empty string
    on the empty one; what it returns holds no newline, no two spaces in a
    row, and only listed characters (letters, digits, [. , ! ?]) and
    spaces. *)
Theorem cleanText_invariant (text : jsstring) :
  cleanText [] = []
  /\ (exists cleaned, cleanText text = cleaned
        /\ ~ In NEWLINE cleaned
        /\ ~ has_double_space cleaned
        /\ Forall listed_or_space cleaned).
Proof.
  split; [reflexivity|].
  exists (cleanText text). split; [reflexivity|].
  split; [apply cleanText_no_newline|].
  split; [apply cleanText_single | apply cleanText_listed].
Qed.

(** C5: cleaning a cleaned text changes nothing. *)
Theorem cleanText_idempotent (text : jsstring) :
  cleanText (cleanText text) = cleanText text.
Proof.
  destruct (cleanText_ends text) as [Hh Hl].
  apply cleanText_fixed.
  - apply cleanText_listed.
  - apply cleanText_single.
  - exact Hh.
  - exact Hl.
Qed.

(** ** The segmenter *)

(** C6, as the code has it: the pieces of [splitSentences] are the stretches of
    the text between the matched delimiters, in order (with the delimiters
    put back they give the text); no piece holds a delimiter; a text
    without delimiter comes back as the single piece; and the empty text
    gives one empty piece, which the filter then drops. *)
Theorem splitSentences_spec (s : jsstring) :
  (exists ds, Forall delimiter ds
              /\ S (length ds) = length (splitSentences s)
              /\ interleave (splitSentences s) ds = s)
  /\ Forall (fun p => ~ contains_delimiter p) (splitSentences s)
  /\ (~ contains_delimiter s -> splitSentences s = [s])
  /\ splitSentences [] = [[]]
  /\ sentencesOf [] = [].
Proof.
  unfold splitSentences. split; [|split; [|split; [|split]]].
  - apply (split_from_rebuild [] s).
  - assert (H : Forall (fun p => has_delimiter p = false) (split_from [] s)).
    { apply split_from_pieces. destruct s; reflexivity. }
    revert H. apply Forall_impl. intros p Hp Hc.
    apply has_delimiter_spec in Hc. congruence.
  - intros Hn. apply (split_from_whole [] s). simpl.
    destruct (has_delimiter s) eqn:Hd; [|reflexivity].
    exfalso. apply Hn, has_delimiter_spec, Hd.
  - reflexivity.
  - reflexivity.
Qed.

(** C6 as stated fails on the empty text: the split returns one piece. *)
Lemma splitSentences_empty_not_empty :
  splitSentences [] = [[]] /\ splitSentences [] <> [].
Proof. split; [reflexivity | discriminate]. Qed.


(** ** The extractor *)

Lemma join_concat (sep : jsstring) (l : list jsstring) :
  l <> [] -> join sep l ++ sep = concat (map (fun x => x ++ sep) l).
Proof.
  induction l as [|x l IH]; intros Hne; [contradiction|].
  destruct l as [|y l].
  - simpl. rewrite app_nil_r. reflexivity.
  - change (join sep (x :: y :: l)) with (x ++ sep ++ join sep (y :: l)).
    rewrite <- !app_assoc, IH by discriminate. simpl.
    rewrite <- !app_assoc. reflexivity.
Qed.

Lemma pageLoop_concat (pdf : PDFUploader.PDFDocumentProxy) (todo : nat) :
  forall i text,
    PDFUploader.pageLoop pdf i todo text =
    text ++ concat (map (fun k => PDFUploader.pageTextOf (PDFUploader.getPage pdf k)
                                  ++ [NEWLINE]) (seq i todo)).
Proof.
  induction todo as [|todo IH]; intros i text; simpl.
  - rewrite app_nil_r. reflexivity.
  - rewrite IH, <- !app_assoc. reflexivity.
Qed.

(** C7: the text of a page is its fragments, in the order pdf.js lists
    them, with one space between neighbours; the text of the document is
    the page texts, from page 1 on, each followed by one newline. With a
    single page it is that page's text and the one newline. *)
Theorem documentText_spec (pdf : PDFUploader.PDFDocumentProxy) :
  PDFUploader.documentText pdf =
    concat (map (fun i => PDFUploader.pageTextOf (PDFUploader.getPage pdf i)
                          ++ [NEWLINE])
                (seq 1 (PDFUploader.numPages pdf)))
  /\ (forall page,
        PDFUploader.items (PDFUploader.getTextContent page) = [] ->
        PDFUploader.pageTextOf page = [])
  /\ (forall page,
        PDFUploader.items (PDFUploader.getTextContent page) <> [] ->
        PDFUploader.pageTextOf page ++ [SPACE] =
          concat (map (fun item => PDFUploader.str item ++ [SPACE])
                      (PDFUploader.items (PDFUploader.getTextContent page))))
  /\ (PDFUploader.numPages pdf = 1 ->
        PDFUploader.documentText pdf =
          PDFUploader.pageTextOf (PDFUploader.getPage pdf 1) ++ [NEWLINE]
        /\ removelast (PDFUploader.documentText pdf) =
          PDFUploader.pageTextOf (PDFUploader.getPage pdf 1)).
Proof.
  assert (Hdoc : PDFUploader.documentText pdf =
    concat (map (fun i => PDFUploader.pageTextOf (PDFUploader.getPage pdf i)
                          ++ [NEWLINE])
                (seq 1 (PDFUploader.numPages pdf)))).
  { unfold PDFUploader.documentText. rewrite pageLoop_concat. reflexivity. }
  split; [exact Hdoc | split; [|split]].
  - intros page H. unfold PDFUploader.pageTextOf. rewrite H. reflexivity.
  - intros page H. unfold PDFUploader.pageTextOf.
    rewrite join_concat.
    + rewrite map_map. reflexivity.
    + destruct (PDFUploader.items (PDFUploader.getTextContent page));
        [contradiction | discriminate].
  - intros H1. rewrite Hdoc, H1. simpl. rewrite app_nil_r.
    split; [reflexivity | apply removelast_last].
Qed.

(** C7 on a document of one page. *)
Lemma documentText_spec_witness :
  PDFUploader.numPages one_page = 1
  /\ PDFUploader.documentText one_page
     = PDFUploader.pageTextOf (PDFUploader.getPage one_page 1) ++ [NEWLINE]
  /\ removelast (PDFUploader.documentText one_page)
     = PDFUploader.pageTextOf (PDFUploader.getPage one_page 1).
Proof.
  split; [reflexivity|].
  apply (proj2 (proj2 (proj2 (documentText_spec one_page)))).
  reflexivity.
Defined.

(** ** Failures and the transport shell *)

(** C8: the route answers 400 with an [error] member when no file came,
    500 with an [error] member when pdf-parse rejects the buffer, and 200
    with the [text] member when it resolves; in the browser a buffer that
    pdf.js rejects ends the handler with that error before [onUpload] is
    called, so no text is stored and no question box is shown. *)
Theorem upload_responses
    (E : Type) (pdfParse : list Byte.byte -> E + Server.PdfData)
    (D : Type) (getDocument : list Byte.byte -> D + PDFUploader.PDFDocumentProxy) :
  (forall req,
      Server.file req = None ->
      Server.statusCode (Server.respond pdfParse req) = 400%N
      /\ (exists msg, Server.has_member "error" msg (Server.respond pdfParse req))
      /\ Server.lacks_member "text" (Server.respond pdfParse req))
  /\ (forall req f e,
      Server.file req = Some f -> pdfParse (Server.buffer f) = inl e ->
      Server.statusCode (Server.respond pdfParse req) = 500%N
      /\ (exists msg, Server.has_member "error" msg (Server.respond pdfParse req))
      /\ Server.lacks_member "text" (Server.respond pdfParse req))
  /\ (forall req f data,
      Server.file req = Some f -> pdfParse (Server.buffer f) = inr data ->
      Server.statusCode (Server.respond pdfParse req) = 200%N
      /\ Server.has_member "text" (Server.text data) (Server.respond pdfParse req)
      /\ Server.lacks_member "error" (Server.respond pdfParse req))
  /\ (forall f rest e,
      PDFUploader.type f = lit "application/pdf" ->
      getDocument (PDFUploader.contents f) = inl e ->
      PDFUploader.handleFileChange getDocument (f :: rest)
        = {| PDFUploader.effects := []; PDFUploader.rejected := Some e |}
      /\ App.after App.initial
           (PDFUploader.handleFileChange getDocument (f :: rest)) = App.initial
      /\ App.shownQuestions
           (App.after App.initial
              (PDFUploader.handleFileChange getDocument (f :: rest))) = None).
Proof.
  unfold Server.respond, Server.upload, Server.has_member, Server.lacks_member.
  split; [|split; [|split]].
  - intros req ->. simpl. split; [reflexivity|]. split; repeat eexists.
  - intros req f e -> ->. simpl. split; [reflexivity|]. split; repeat eexists.
  - intros req f data -> ->. simpl. split; [reflexivity|]. split; repeat eexists.
  - intros f rest e Ht He.
    assert (H : PDFUploader.handleFileChange getDocument (f :: rest)
      = {| PDFUploader.effects := []; PDFUploader.rejected := Some e |}).
    { unfold PDFUploader.handleFileChange, PDFUploader.onload.
      destruct (list_eq_dec N.eq_dec (PDFUploader.type f) (lit "application/pdf"));
        [|contradiction].
      rewrite He. reflexivity. }
    rewrite H. repeat split.
Qed.

(** C8 on a buffer that does not begin as a PDF. *)
Lemma upload_responses_witness :
  (stub_pdfParse not_a_pdf = inl tt
   /\ Server.statusCode
        (Server.respond stub_pdfParse
           {| Server.file := Some {| Server.buffer := not_a_pdf |} |}) = 500%N)
  /\ (stub_getDocument not_a_pdf = inl tt
      /\ App.shownQuestions
           (App.after App.initial
              (PDFUploader.handleFileChange stub_getDocument
                 [ {| PDFUploader.type := lit "application/pdf";
                      PDFUploader.contents := not_a_pdf |} ])) = None).
Proof.
  destruct (upload_responses stub_pdfParse stub_getDocument)
    as [_ [H500 [_ Hclient]]].
  split; (split; [reflexivity|]).
  - apply (H500 _ {| Server.buffer := not_a_pdf |} tt); reflexivity.
  - apply (Hclient _ [] tt); reflexivity.
Defined.

(** ** Determinism *)

(** C9: two runs of the effect on texts with the same cleaned text leave
    the same list of prompts, whatever the component held before: splitting,
    filtering and synthesis read nothing but the cleaned text. *)
Theorem prompts_deterministic
    (text1 text2 : jsstring) (st1 st2 : QuestionBoxState) :
  cleanText text1 = cleanText text2 ->
  promptsOfCleaned (cleanText text1) = promptsOfCleaned (cleanText text2)
  /\ questions (runEffect text1 st1) = questions (runEffect text2 st2).
Proof.
  intros H. unfold runEffect, cleanAndGenerateQuestions. simpl.
  rewrite H. split; reflexivity.
Qed.

(** C9 on two texts that differ only in their surrounding blanks. *)
Lemma prompts_deterministic_witness :
  cleanText (NEWLINE :: mito) = cleanText (mito ++ [SPACE; SPACE])
  /\ promptsOfCleaned (cleanText (NEWLINE :: mito))
     = promptsOfCleaned (cleanText (mito ++ [SPACE; SPACE]))
  /\ questions (runEffect (NEWLINE :: mito) {| questions := [] |})
     = questions (runEffect (mito ++ [SPACE; SPACE]) {| questions := [mito] |}).
Proof.
  split.
  - vm_compute. reflexivity.
  - apply (prompts_deterministic (NEWLINE :: mito) (mito ++ [SPACE; SPACE])).
    vm_compute. reflexivity.
Defined.

(** ** The allow-list *)

(** Every segment the pipeline filters is made of ASCII code units, so
    its length is its number of characters. *)
Lemma interleave_In (ps ds : list jsstring) (p : jsstring) (c : codeunit) :
  In p ps -> In c p -> In c (interleave ps ds).
Proof.
  revert ds. induction ps as [|q ps IH]; intros ds Hp Hc; [contradiction|].
  destruct Hp as [->|Hp].
  - destruct ds; simpl; apply in_or_app; left; exact Hc.
  - destruct ds as [|d ds]; simpl; apply in_or_app; right.
    + apply in_concat. exists p. split; assumption.
    + apply in_or_app. right. apply IH; assumption.
Qed.

Lemma segments_ascii (text : jsstring) :
  Forall (Forall (fun c => (c < 128)%N)) (splitSentences (cleanText text)).
Proof.
  destruct (split_from_rebuild [] (cleanText text)) as [ds [_ [_ Heq]]].
  fold (splitSentences (cleanText text)) in Heq. simpl in Heq.
  apply Forall_forall. intros p Hp. apply Forall_forall. intros c Hc.
  apply listed_ascii.
  pose proof (cleanText_listed text) as Hl. rewrite Forall_forall in Hl.
  apply Hl. rewrite <- Heq. apply interleave_In with (p := p); assumption.
Qed.

(** C10: the class kept by the first pass is the ASCII letters and
    digits, [. , ! ?], space and newline; any other code unit, an accented
    letter or a digit of another script included, becomes a space at its
    place; the cleaned text is made of listed ASCII characters and single
    spaces only. *)
Theorem allow_list_ascii (text : jsstring) :
  (forall c, allow_class c = true <-> listed c \/ c = SPACE \/ c = NEWLINE)
  /\ length (pass_allow text) = length text
  /\ (forall i c, nth_error text i = Some c ->
        ~ (listed c \/ c = SPACE \/ c = NEWLINE) ->
        nth_error (pass_allow text) i = Some SPACE)
  /\ (forall i c, nth_error text i = Some c ->
        listed c \/ c = SPACE \/ c = NEWLINE ->
        nth_error (pass_allow text) i = Some c)
  /\ pass_allow [233%N; 1635%N] = [SPACE; SPACE]
  /\ Forall (fun c => listed_or_space c /\ (c < 128)%N) (cleanText text)
  /\ ~ has_double_space (cleanText text).
Proof.
  split; [exact allow_class_spec|].
  split; [rewrite pass_allow_map; apply length_map|].
  split; [|split; [|split; [reflexivity|split]]].
  - intros i c Hi Hc. rewrite pass_allow_map, nth_error_map, Hi. simpl.
    destruct (allow_class c) eqn:Ha; [|reflexivity].
    exfalso. apply Hc, allow_class_spec, Ha.
  - intros i c Hi Hc. rewrite pass_allow_map, nth_error_map, Hi. simpl.
    apply allow_class_spec in Hc. rewrite Hc. reflexivity.
  - pose proof (cleanText_listed text) as Hl. revert Hl.
    apply Forall_impl. intros c Hc. split; [exact Hc | apply listed_ascii, Hc].
  - apply cleanText_single.
Qed.

(** * Further properties of the code *)

(** ** The cleaned text, continued *)

Lemma replace_runs_from_length (cls : codeunit -> bool) (x : codeunit)
    (s : jsstring) :
  forall in_run, length (replace_runs_from cls [x] in_run s) <= length s.
Proof.
  induction s as [|c t IH]; intros in_run; simpl; [lia|].
  destruct (cls c).
  - rewrite length_app. specialize (IH true). destruct in_run; simpl; lia.
  - simpl. specialize (IH false). lia.
Qed.

Lemma trimStart_length (s : jsstring) : length (trimStart s) <= length s.
Proof.
  induction s as [|c t IH]; simpl; [lia|].
  destruct (is_whitespace c); simpl; lia.
Qed.

Lemma trim_length (s : jsstring) : length (trim s) <= length s.
Proof.
  unfold trim, trimEnd. rewrite length_rev.
  etransitivity; [apply trimStart_length|].
  rewrite length_rev. apply trimStart_length.
Qed.

Lemma cleanText_length (text : jsstring) :
  length (cleanText text) <= length text.
Proof.
  unfold cleanText, pass_newlines, pass_whitespace, replace_runs.
  etransitivity; [apply trim_length|].
  etransitivity; [apply replace_runs_from_length|].
  etransitivity; [apply replace_runs_from_length|].
  rewrite pass_allow_map, length_map. lia.
Qed.

(** X1: the cleaned text neither begins nor ends with a whitespace
    character, and it is never longer than the text it comes from. *)
Theorem cleanText_trimmed_and_shorter (text : jsstring) :
  (forall c rest, cleanText text = c :: rest -> is_whitespace c = false)
  /\ (forall front c, cleanText text = front ++ [c] -> is_whitespace c = false)
  /\ length (cleanText text) <= length text.
Proof.
  destruct (cleanText_ends text) as [Hh Hl]. split; [|split].
  - intros c rest H. apply Hh. rewrite H. reflexivity.
  - intros front c H. apply Hl. rewrite H, rev_app_distr. reflexivity.
  - apply cleanText_length.
Qed.

(** X2: after the whitespace pass no newline is left, so the pass over
    runs of newlines never changes anything. *)
Theorem newline_pass_changes_nothing (text : jsstring) :
  pass_newlines (pass_whitespace (pass_allow text))
  = pass_whitespace (pass_allow text).
Proof. exact (passes_whitespace text). Qed.

Lemma pass_allow_app (a b : jsstring) :
  pass_allow (a ++ b) = pass_allow a ++ pass_allow b.
Proof. unfold pass_allow, replace_each. apply flat_map_app. Qed.

Lemma whitespace_runs_swap (r a b : jsstring) (x y : codeunit) :
  is_whitespace x = true -> is_whitespace y = true ->
  forall in_run,
    replace_runs_from is_whitespace r in_run (a ++ x :: b)
    = replace_runs_from is_whitespace r in_run (a ++ y :: b).
Proof.
  intros Hx Hy. induction a as [|c a IH]; intros in_run; simpl.
  - rewrite Hx, Hy. reflexivity.
  - rewrite !IH. reflexivity.
Qed.

(** X3: a code unit that is whitespace or outside the kept class counts
    as a space wherever it stands: putting a space in its place gives the
    same cleaned text. A page break (newline), a tab and a dash are cases. *)
Theorem cleanText_blank (a b : jsstring) (c : codeunit) :
  allow_class c = false \/ is_whitespace c = true ->
  cleanText (a ++ c :: b) = cleanText (a ++ SPACE :: b).
Proof.
  intros Hc. unfold cleanText. do 2 f_equal.
  rewrite !pass_allow_app.
  change (pass_allow (c :: b))
    with ((if negb (allow_class c) then [SPACE] else [c]) ++ pass_allow b).
  change (pass_allow (SPACE :: b)) with ([SPACE] ++ pass_allow b).
  destruct (allow_class c) eqn:Ha; simpl; [|reflexivity].
  destruct Hc as [Hc|Hc]; [discriminate|].
  unfold pass_whitespace, replace_runs.
  apply whitespace_runs_swap; [exact Hc | reflexivity].
Qed.

(** X3 with a newline between two words. *)
Lemma cleanText_blank_witness :
  (allow_class NEWLINE = false \/ is_whitespace NEWLINE = true)
  /\ cleanText (lit "one" ++ NEWLINE :: lit "two")
     = cleanText (lit "one" ++ SPACE :: lit "two").
Proof.
  split; [right; reflexivity|].
  apply (cleanText_blank (lit "one") (lit "two") NEWLINE).
  right. reflexivity.
Defined.

(** ** Splitting, continued *)

Lemma delimiter_length (d : jsstring) : delimiter d -> length d = 2.
Proof. intros [->|[->| ->]]; reflexivity. Qed.

Lemma interleave_length (ps ds : list jsstring) :
  Forall delimiter ds -> S (length ds) = length ps ->
  length (interleave ps ds) = total_length ps + 2 * length ds.
Proof.
  unfold total_length. intros Hd. revert ps.
  induction Hd as [|d ds Hdel _ IH]; intros ps Hlen.
  - destruct ps as [|p [|q ps]]; try discriminate Hlen.
    simpl. rewrite length_app. simpl. lia.
  - destruct ps as [|p ps]; [discriminate Hlen|].
    simpl in Hlen. injection Hlen as Hlen.
    change (interleave (p :: ps) (d :: ds)) with (p ++ d ++ interleave ps ds).
    rewrite !length_app, (IH ps Hlen), (delimiter_length Hdel). simpl. lia.
Qed.

Lemma total_length_In (ps : list jsstring) (p : jsstring) :
  In p ps -> length p <= total_length ps.
Proof.
  unfold total_length. induction ps as [|q ps IH]; intros Hin; [contradiction|].
  simpl. destruct Hin as [->|Hin]; [lia|]. specialize (IH Hin). lia.
Qed.

Lemma split_lengths (s : jsstring) :
  total_length (splitSentences s) + 2 * (length (splitSentences s) - 1)
  = length s
  /\ 1 <= length (splitSentences s).
Proof.
  destruct (split_from_rebuild [] s) as [ds [Hd [Hlen Heq]]].
  fold (splitSentences s) in Hlen, Heq. simpl in Heq.
  pose proof (@interleave_length _ _ Hd Hlen) as Hsum. rewrite Heq in Hsum.
  split; lia.
Qed.

Lemma split_piece_length (s p : jsstring) :
  In p (splitSentences s) -> length p <= length s.
Proof.
  intros Hp. apply total_length_In in Hp.
  destruct (split_lengths s) as [Hsum _]. lia.
Qed.

(** X4: a split loses exactly the delimiters: there is always at least
    one piece, and the lengths of the pieces plus two code units for each
    gap between neighbours add up to the length of the text. Hence no
    piece is longer than the text. *)
Theorem splitSentences_lengths (s : jsstring) :
  1 <= length (splitSentences s)
  /\ total_length (splitSentences s) + 2 * (length (splitSentences s) - 1)
     = length s
  /\ (forall p, In p (splitSentences s) -> length p <= length s).
Proof.
  destruct (split_lengths s) as [Hsum Hone].
  split; [exact Hone|]. split; [exact Hsum|].
  intros p. apply split_piece_length.
Qed.

(** Pieces of a single-spaced text that does not begin with a space: the
    invariant is written with a space put in front. *)
Lemma split_from_spacing (cur s : jsstring) :
  ~ has_double_space (SPACE :: rev cur ++ s) ->
  Forall (fun p => ~ has_double_space (SPACE :: p)) (split_from cur s).
Proof.
  functional induction (split_from cur s); intros H.
  - rewrite app_nil_r in H. repeat constructor. exact H.
  - repeat constructor. exact H.
  - constructor.
    + intros Hd. apply H.
      apply (double_space_infix [] (c :: d :: t')) in Hd. exact Hd.
    + apply IHl. simpl. intros Hd. apply H.
      assert (Hd' : d = SPACE).
      { revert e1. classes. intros [_ ->]. reflexivity. }
      subst d.
      apply (double_space_infix (SPACE :: rev cur ++ [c]) []) in Hd.
      rewrite app_nil_r in Hd. simpl in Hd.
      rewrite <- app_assoc in Hd. simpl in Hd. exact Hd.
  - apply IHl. simpl. rewrite <- app_assoc. exact H.
Qed.

Lemma cleanText_spacing (text : jsstring) :
  ~ has_double_space (SPACE :: cleanText text).
Proof.
  intros Hd. apply double_space_cons in Hd as [[_ Hh]|Hd].
  - destruct (cleanText_ends text) as [Hws _].
    specialize (Hws _ Hh). discriminate.
  - exact (cleanText_single text Hd).
Qed.

(** A single-spaced stretch of listed characters and spaces that does
    not begin with a space loses at most one trailing space to [trim]. *)
Lemma trim_piece (p : jsstring) :
  Forall listed_or_space p -> ~ has_double_space (SPACE :: p) ->
  trim p = p \/ (p = trim p ++ [SPACE] /\ trim (trim p) = trim p).
Proof.
  intros Hl Hd.
  assert (Hhead : forall c, hd_error p = Some c -> is_whitespace c = false).
  { intros c Hc. destruct p as [|x p]; [discriminate|]. injection Hc as ->.
    inversion Hl as [|? ? [Hx| ->] _]; subst.
    - apply listed_not_whitespace, Hx.
    - exfalso. apply Hd. exists [], p. reflexivity. }
  unfold trim. rewrite (trimStart_id _ Hhead). unfold trimEnd.
  destruct (rev p) as [|c r] eqn:Hrev.
  - left. apply (f_equal (@rev codeunit)) in Hrev.
    rewrite rev_involutive in Hrev. subst p. reflexivity.
  - assert (Hp : p = rev r ++ [c]).
    { apply (f_equal (@rev codeunit)) in Hrev.
      rewrite rev_involutive in Hrev. exact Hrev. }
    assert (Hc : listed_or_space c).
    { rewrite Forall_forall in Hl. apply Hl. rewrite Hp.
      apply in_or_app. right. left. reflexivity. }
    destruct Hc as [Hc| ->].
    + left. simpl. rewrite (listed_not_whitespace Hc). simpl. symmetry. exact Hp.
    + right. change (trimStart (SPACE :: r)) with (trimStart r).
      assert (Hr : forall d, hd_error r = Some d -> is_whitespace d = false).
      { intros d Hdh. destruct r as [|x r]; [discriminate|]. injection Hdh as ->.
        assert (Hx : listed_or_space d).
        { rewrite Forall_forall in Hl. apply Hl. rewrite Hp. simpl.
          apply in_or_app. left. apply in_or_app. right. left. reflexivity. }
        destruct Hx as [Hx| ->]; [apply listed_not_whitespace, Hx|].
        exfalso. apply Hd. rewrite Hp. simpl.
        exists (SPACE :: rev r), []. simpl. rewrite <- app_assoc. reflexivity. }
      rewrite !(trimStart_id _ Hr). split; [exact Hp|].
      assert (Hh2 : forall d, hd_error (rev r) = Some d -> is_whitespace d = false).
      { intros d Hdh. apply Hhead. rewrite Hp.
        destruct (rev r); [discriminate | exact Hdh]. }
      rewrite (trimStart_id _ Hh2), rev_involutive, (trimStart_id _ Hr).
      reflexivity.
Qed.

Lemma segments_listed (text : jsstring) (p : jsstring) :
  In p (splitSentences (cleanText text)) -> Forall listed_or_space p.
Proof.
  intros Hp.
  destruct (split_from_rebuild [] (cleanText text)) as [ds [_ [_ Heq]]].
  fold (splitSentences (cleanText text)) in Heq. simpl in Heq.
  apply Forall_forall. intros c Hc.
  pose proof (cleanText_listed text) as Hl. rewrite Forall_forall in Hl.
  apply Hl. rewrite <- Heq. apply interleave_In with (p := p); assumption.
Qed.

Lemma segment_spacing (text p : jsstring) :
  In p (splitSentences (cleanText text)) ->
  Forall listed_or_space p /\ ~ has_double_space (SPACE :: p).
Proof.
  intros Hp. split; [exact (segments_listed _ _ Hp)|].
  pose proof (@split_from_spacing [] (cleanText text)) as H.
  simpl in H. specialize (H (cleanText_spacing text)).
  rewrite Forall_forall in H. apply H, Hp.
Qed.

Lemma segment_trim_length (text p : jsstring) :
  In p (splitSentences (cleanText text)) ->
  (trim p = p \/ p = trim p ++ [SPACE]) /\ length p <= length (trim p) + 1.
Proof.
  intros Hp. destruct (segment_spacing _ _ Hp) as [Hl Hd].
  destruct (trim_piece Hl Hd) as [H|[H _]].
  - split; [left; exact H | rewrite H; lia].
  - split; [right; exact H|].
    rewrite H at 1. rewrite length_app. simpl. lia.
Qed.

(** X5: a segment of a cleaned text never begins with whitespace and ends
    with at most one space (the one that stood before a terminator), so
    the [trim] of the template removes one trailing space or nothing. *)
Theorem segments_trim (text p : jsstring) :
  In p (splitSentences (cleanText text)) ->
  (forall c rest, p = c :: rest -> is_whitespace c = false)
  /\ (trim p = p \/ p = trim p ++ [SPACE])
  /\ length p <= length (trim p) + 1.
Proof.
  intros Hp.
  destruct (segment_spacing _ _ Hp) as [Hl Hd].
  destruct (segment_trim_length _ _ Hp) as [Htrim Hlen].
  split; [|split; [exact Htrim | exact Hlen]].
  intros c rest ->. inversion Hl as [|? ? [Hx| ->] _]; subst.
  - apply listed_not_whitespace, Hx.
  - exfalso. apply Hd. exists [], rest. reflexivity.
Qed.

(** X5 on the second sentence of a text with a space before its full
    stop. *)
Lemma segments_trim_witness :
  In (lit "It works ") (splitSentences (cleanText (lit "Try it. It works . Done")))
  /\ lit "It works " = trim (lit "It works ") ++ [SPACE].
Proof.
  assert (Hin : In (lit "It works ")
                  (splitSentences (cleanText (lit "Try it. It works . Done")))).
  { vm_compute. right. left. reflexivity. }
  split; [exact Hin|].
  destruct (segments_trim _ _ Hin) as [_ [[H|H] _]].
  - vm_compute in H. discriminate H.
  - exact H.
Defined.

(** ** The whole of [cleanAndGenerateQuestions] *)

Lemma filter_none (A : Type) (f : A -> bool) (l : list A) :
  (forall x, In x l -> f x = false) -> filter f l = [].
Proof.
  induction l as [|x l IH]; intros H; simpl; [reflexivity|].
  rewrite (H x (or_introl eq_refl)). apply IH.
  intros y Hy. apply H. right. exact Hy.
Qed.

(** X6: a text of at most 30 code units gives no question, whatever it
    holds: no segment of its cleaned text can exceed the threshold. *)
Theorem short_text_no_questions (text : jsstring) :
  length text <= 30 -> cleanAndGenerateQuestions text = [].
Proof.
  intros Hlen.
  unfold cleanAndGenerateQuestions, promptsOfCleaned, sentencesOf, candidateFilter.
  rewrite filter_none; [reflexivity|].
  intros p Hp. unfold longEnough. apply Nat.ltb_ge.
  pose proof (split_piece_length _ _ Hp) as Hpiece.
  pose proof (cleanText_length text) as Hclean. lia.
Qed.

(** X6 on a text of thirty letters. *)
Lemma short_text_no_questions_witness :
  length thirty <= 30 /\ cleanAndGenerateQuestions thirty = [].
Proof.
  split; [vm_compute; lia|].
  apply (short_text_no_questions thirty). vm_compute. lia.
Defined.

Lemma prompt_shape_length (i : nat) (t : jsstring) :
  i < 5 -> length (prompt_shape i t) = 30 + length t.
Proof.
  intros Hi. unfold prompt_shape.
  destruct i as [|[|[|[|[|i]]]]]; try lia;
    rewrite !length_app; simpl; lia.
Qed.

(** X7: every prompt that [cleanAndGenerateQuestions] returns has an
    index below 5 and quotes the segment of the same rank among those
    longer than 30; what is quoted is that segment, less a trailing space
    if it has one, so at least 30 code units, and the prompt is 30 code
    units longer than what it quotes. *)
Theorem prompts_quote_segments (text : jsstring) (i : nat) (p : jsstring) :
  nth_error (cleanAndGenerateQuestions text) i = Some p ->
  i < 5
  /\ exists s,
       nth_error (sentencesOf (cleanText text)) i = Some s
       /\ 30 < length s
       /\ p = prompt_shape i (trim s)
       /\ (trim s = s \/ s = trim s ++ [SPACE])
       /\ 30 <= length (trim s)
       /\ length p = 30 + length (trim s).
Proof.
  unfold cleanAndGenerateQuestions, promptsOfCleaned, generateQuestions,
    map_indexed.
  rewrite map_indexed_from_nth, nth_error_firstn. intros H.
  destruct (i <? 5) eqn:Hi; [|discriminate H].
  apply Nat.ltb_lt in Hi. split; [exact Hi|].
  destruct (nth_error (sentencesOf (cleanText text)) i) as [s|] eqn:Hs;
    [|discriminate H].
  simpl in H. injection H as <-. exists s.
  assert (Hin : In s (sentencesOf (cleanText text))).
  { apply nth_error_In with (n := i). exact Hs. }
  unfold sentencesOf, candidateFilter in Hin.
  apply filter_In in Hin as [Hin Hlong]. apply longEnough_spec in Hlong.
  destruct (segment_trim_length _ _ Hin) as [Htrim Hlen].
  split; [reflexivity|]. split; [exact Hlong|].
  split; [apply prompt_shape_eq|]. split; [exact Htrim|].
  split; [lia|].
  rewrite prompt_shape_eq. apply prompt_shape_length, Hi.
Qed.

(** X7 on the second prompt of the mitochondria text. *)
Lemma prompts_quote_segments_witness :
  nth_error (cleanAndGenerateQuestions mito) 1
    = Some (prompt_text "2" "It performs cellular respiration constantly.")
  /\ length (prompt_text "2" "It performs cellular respiration constantly.")
     = 30 + 44.
Proof.
  assert (H : nth_error (cleanAndGenerateQuestions mito) 1
    = Some (prompt_text "2" "It performs cellular respiration constantly.")).
  { vm_compute. reflexivity. }
  split; [exact H|].
  destruct (prompts_quote_segments mito 1 H)
    as [_ [s [Hs [_ [_ [_ [_ Hlen]]]]]]].
  vm_compute in Hs. injection Hs as <-. exact Hlen.
Defined.

(** ** What QuestionBox shows *)

Lemma map_indexed_from_split (A : Type) (l : list A) :
  forall idx,
    map fst (map_indexed_from (fun q i => (i, q)) idx l) = seq idx (length l)
    /\ map snd (map_indexed_from (fun q i => (i, q)) idx l) = l.
Proof.
  induction l as [|x l IH]; intros idx; simpl; [split; reflexivity|].
  destruct (IH (S idx)) as [H1 H2]. rewrite H1, H2. split; reflexivity.
Qed.

Lemma generateQuestions_length (sentences : list jsstring) :
  length (generateQuestions sentences) = Nat.min 5 (length sentences).
Proof.
  unfold generateQuestions, map_indexed.
  rewrite map_indexed_from_length. apply length_firstn.
Qed.

(** X8: once the effect has run, the box shows the message for no valid
    content exactly when the cleaned text has no segment longer than 30;
    otherwise it lists the prompts in order, at most five, keyed 0, 1, ... *)
Theorem render_after_effect (text : jsstring) (st : QuestionBoxState) :
  (sentencesOf (cleanText text) = [] ->
     render (runEffect text st)
     = NoValidContent (lit "No valid content found to generate questions."))
  /\ (sentencesOf (cleanText text) <> [] ->
     exists items,
       render (runEffect text st) = QuestionList items
       /\ map snd items = cleanAndGenerateQuestions text
       /\ map fst items = seq 0 (length items)
       /\ 1 <= length items <= 5).
Proof.
  unfold render, runEffect. simpl.
  pose proof (generateQuestions_length (sentencesOf (cleanText text))) as Hlen.
  fold (promptsOfCleaned (cleanText text)) in Hlen.
  fold (cleanAndGenerateQuestions text) in Hlen.
  split.
  - intros H. rewrite H in Hlen. simpl in Hlen.
    destruct (cleanAndGenerateQuestions text); [reflexivity | discriminate Hlen].
  - intros H.
    destruct (sentencesOf (cleanText text)) as [|s0 rest] eqn:Hs; [contradiction|].
    destruct (cleanAndGenerateQuestions text) as [|q qs] eqn:Hq;
      [simpl in Hlen; destruct rest as [|? [|? [|? [|? ?]]]]; discriminate Hlen|].
    eexists. split; [reflexivity|].
    destruct (map_indexed_from_split (q :: qs) 0) as [H1 H2].
    unfold map_indexed. rewrite H1, H2, map_indexed_from_length.
    split; [reflexivity|]. split; [reflexivity|].
    rewrite Hlen. simpl. destruct rest as [|? [|? [|? [|? ?]]]]; simpl; lia.
Qed.

(** ** The document text, continued *)

Lemma documentText_pages_aux (pdf : PDFUploader.PDFDocumentProxy) :
  (PDFUploader.documentText pdf = [] <-> PDFUploader.numPages pdf = 0)
  /\ PDFUploader.numPages pdf <= length (PDFUploader.documentText pdf).
Proof.
  unfold PDFUploader.documentText. rewrite pageLoop_concat. simpl.
  generalize 1 as first.
  induction (PDFUploader.numPages pdf) as [|n IH]; intros first.
  - simpl. repeat split; try reflexivity; lia.
  - destruct (IH (S first)) as [Hiff Hlen]. simpl. split.
    + split; [|discriminate]. intros H.
      apply app_eq_nil in H as [H _]. apply app_eq_nil in H as [_ H].
      discriminate H.
    + rewrite !length_app. simpl. lia.
Qed.

(** X9: the document text is empty exactly when the document has no
    page; with a page or more it ends with the newline of the last page,
    and it holds at least one code unit for each page. *)
Theorem documentText_pages (pdf : PDFUploader.PDFDocumentProxy) :
  (PDFUploader.documentText pdf = [] <-> PDFUploader.numPages pdf = 0)
  /\ (0 < PDFUploader.numPages pdf ->
        exists front, PDFUploader.documentText pdf = front ++ [NEWLINE])
  /\ PDFUploader.numPages pdf <= length (PDFUploader.documentText pdf).
Proof.
  destruct (documentText_pages_aux pdf) as [Hiff Hlen].
  split; [exact Hiff|]. split; [|exact Hlen].
  unfold PDFUploader.documentText. rewrite pageLoop_concat. simpl.
  intros Hpos.
  destruct (PDFUploader.numPages pdf) as [|n]; [lia|].
  rewrite seq_S, map_app, concat_app. simpl.
  rewrite app_nil_r, !app_assoc. eexists. reflexivity.
Qed.

(** X10: only the pages numbered 1 to [numPages] are read: two documents
    with the same page count and the same pages at those numbers give the
    same text, whatever they answer for other numbers. *)
Theorem documentText_reads_listed_pages (pdf1 pdf2 : PDFUploader.PDFDocumentProxy) :
  PDFUploader.numPages pdf1 = PDFUploader.numPages pdf2 ->
  (forall i, 1 <= i <= PDFUploader.numPages pdf1 ->
             PDFUploader.getPage pdf1 i = PDFUploader.getPage pdf2 i) ->
  PDFUploader.documentText pdf1 = PDFUploader.documentText pdf2.
Proof.
  intros Hn Hpages. unfold PDFUploader.documentText.
  rewrite !pageLoop_concat, <- Hn. simpl. f_equal.
  apply map_ext_in. intros i Hi. apply in_seq in Hi.
  rewrite Hpages by lia. reflexivity.
Qed.

(** X10 on two documents that differ at page 0 and after page 1. *)
Lemma documentText_reads_listed_pages_witness :
  PDFUploader.getPage one_page 0 <> PDFUploader.getPage one_page_elsewhere 0
  /\ PDFUploader.documentText one_page
     = PDFUploader.documentText one_page_elsewhere.
Proof.
  split; [discriminate|].
  apply (documentText_reads_listed_pages one_page one_page_elsewhere).
  - reflexivity.
  - intros i Hi. simpl in Hi. assert (i = 1) as -> by lia. reflexivity.
Defined.

(** ** Uploads and the text that is shown *)

(** X11: without a file, or with a first file whose type is not
    [application/pdf], the handler raises the one alert and nothing else:
    the decoder is not consulted, [onUpload] is not called, and the text
    the App holds stays as it was. *)
Theorem refused_upload
    (D : Type) (getDocument : list Byte.byte -> D + PDFUploader.PDFDocumentProxy)
    (files : list PDFUploader.File) (st : App.state) :
  hd_error (map (@PDFUploader.type) files) <> Some (lit "application/pdf") ->
  PDFUploader.handleFileChange getDocument files
    = {| PDFUploader.effects := [PDFUploader.Alert (lit "Please upload a valid PDF.")];
         PDFUploader.rejected := None |}
  /\ App.after st (PDFUploader.handleFileChange getDocument files) = st.
Proof.
  intros Hty.
  assert (H : PDFUploader.handleFileChange getDocument files
              = PDFUploader.alertInvalid D).
  { unfold PDFUploader.handleFileChange.
    destruct files as [|f rest]; [reflexivity|].
    destruct (list_eq_dec N.eq_dec (PDFUploader.type f) (lit "application/pdf"))
      as [Heq|_]; [|reflexivity].
    exfalso. apply Hty. simpl. rewrite Heq. reflexivity. }
  rewrite H. split; reflexivity.
Qed.

(** X11 on an image file, with a text already shown. *)
Lemma refused_upload_witness :
  hd_error (map (@PDFUploader.type) [png_file; pdf_file])
    <> Some (lit "application/pdf")
  /\ App.after {| App.pdfText := mito |}
       (PDFUploader.handleFileChange stub_getDocument [png_file; pdf_file])
     = {| App.pdfText := mito |}.
Proof.
  assert (H : hd_error (map (@PDFUploader.type) [png_file; pdf_file])
              <> Some (lit "application/pdf")).
  { vm_compute. discriminate. }
  split; [exact H|].
  apply (refused_upload stub_getDocument [png_file; pdf_file]
           {| App.pdfText := mito |} H).
Defined.



(** ** The route, continued *)

